(** * MY-AITuber API: the emotion classifier and the chat service

    A shallow embedding of

    - [app/models/chat.py]               (the enums and the message records),
    - [app/services/emotion_service.py]  ([EmotionService]),
    - [app/services/chat_service.py]     ([ChatService]),

    and the properties of the keyword classifier, of the mocked confidence
    scores and of the message log.

    Conventions of the embedding.

    - A Python [str] is a [string].  [str.lower] is a parameter [lower] of
      the development: every general theorem holds for any lowering
      function, and [lower_ascii] (A-Z to a-z, everything else unchanged,
      which is what [str.lower] does on ASCII text) is the instance used
      to run the code on concrete inputs.
    - [word in text] is the substring test [str_in].
    - A [dict] is an association list in insertion order, since the code
      iterates over [items()] and [values()].
    - The coroutines never suspend (each [await] is on a coroutine that
      runs to completion), so a call is one atomic step on the state.
    - [uuid.uuid4()], [datetime.now()] and the [random] module are read
      from the world state, one value per call. *)

From Stdlib Require Import List String Ascii Bool Arith ZArith Lia.
From Stdlib Require Import Uint63 PrimFloat Sorted.
Import ListNotations.

Local Open Scope list_scope.
Local Open Scope string_scope.

(** ** Python strings *)

(** [is_prefix w t]: [t.startswith(w)]. *)
Fixpoint is_prefix (w t : string) : bool :=
  match w, t with
  | EmptyString, _ => true
  | String a w', String b t' => if Ascii.eqb a b then is_prefix w' t' else false
  | String _ _, EmptyString => false
  end.

(** [str_in w t]: the Python expression [w in t] on two strings. *)
Fixpoint str_in (w t : string) : bool :=
  if is_prefix w t then true
  else match t with
       | EmptyString => false
       | String _ t' => str_in w t'
       end.

(** What [str_in] decides: [w] occurs in [t] as a contiguous block. *)
Definition Substring (w t : string) : Prop :=
  exists pre post, t = pre ++ w ++ post.

(** [str.lower] on one ASCII character. *)
Definition lower_char (c : ascii) : ascii :=
  let n := nat_of_ascii c in
  if (65 <=? n)%nat && (n <=? 90)%nat then ascii_of_nat (n + 32) else c.

(** [str.lower] on ASCII text. *)
Fixpoint lower_ascii (s : string) : string :=
  match s with
  | EmptyString => EmptyString
  | String c s' => String (lower_char c) (lower_ascii s')
  end.

(** ** app/models/chat.py *)

Inductive Emotion : Type :=
  | JOY | ANGER | SADNESS | SURPRISE | FEAR | DISGUST | NEUTRAL.

(** [e.value] for [e] in [Emotion]. *)
Definition Emotion_value (e : Emotion) : string :=
  match e with
  | JOY => "joy"
  | ANGER => "anger"
  | SADNESS => "sadness"
  | SURPRISE => "surprise"
  | FEAR => "fear"
  | DISGUST => "disgust"
  | NEUTRAL => "neutral"
  end.

(** [list(Emotion)]: the members in definition order. *)
Definition Emotion_members : list Emotion :=
  [JOY; ANGER; SADNESS; SURPRISE; FEAR; DISGUST; NEUTRAL].

Definition Emotion_eqb (a b : Emotion) : bool :=
  match a, b with
  | JOY, JOY | ANGER, ANGER | SADNESS, SADNESS | SURPRISE, SURPRISE
  | FEAR, FEAR | DISGUST, DISGUST | NEUTRAL, NEUTRAL => true
  | _, _ => false
  end.

Inductive ASDNTMode : Type := ASD | NT.

Inductive MessageRole : Type := USER | ASSISTANT | SYSTEM.

(** [datetime] values. *)
Definition datetime : Type := Z.

Record ChatMessageRequest : Type := {
  req_content : string;
  req_emotion : Emotion;
  req_mode : option ASDNTMode
}.

Record ChatMessageResponse : Type := {
  resp_message : string;
  resp_emotion : Emotion;
  resp_internal_emotion : Emotion;
  resp_timestamp : datetime
}.

Record ChatMessage : Type := {
  id : string;
  role : MessageRole;
  content : string;
  timestamp : datetime;
  emotion : Emotion;
  internal_emotion : option Emotion
}.

(** ** The world the services run in *)

Record ChatService : Type := { messages : list ChatMessage }.

(** [ChatService.__init__]. *)
Definition ChatService_init : ChatService := {| messages := [] |}.

Record World : Type := {
  chat_service : ChatService;      (* the global instance *)
  uuids : nat -> string;           (* what the next calls of uuid4 return *)
  clock : nat -> datetime          (* what the next calls of now return *)
}.

(** A computation on the world. *)
Definition M (A : Type) : Type := World -> A * World.

Definition ret {A} (a : A) : M A := fun w => (a, w).

Definition bind {A B} (c : M A) (k : A -> M B) : M B :=
  fun w => let (a, w') := c w in k a w'.

Declare Scope m_scope.
Delimit Scope m_scope with M.
Notation "x <- c ;; k" := (bind c (fun x => k))
  (at level 61, c at next level, right associativity) : m_scope.
Notation "c ;;; k" := (bind c (fun _ => k))
  (at level 61, right associativity) : m_scope.

(** [str(uuid.uuid4())]. *)
Definition uuid4 : M string :=
  fun w => (uuids w 0%nat,
            {| chat_service := chat_service w;
               uuids := fun n => uuids w (S n);
               clock := clock w |}).

(** [datetime.now()]. *)
Definition now : M datetime :=
  fun w => (clock w 0%nat,
            {| chat_service := chat_service w;
               uuids := uuids w;
               clock := fun n => clock w (S n) |}).

(** [self.messages]. *)
Definition self_messages : M (list ChatMessage) :=
  fun w => (messages (chat_service w), w).

Definition set_messages (l : list ChatMessage) : M unit :=
  fun w => (tt, {| chat_service := {| messages := l |};
                   uuids := uuids w;
                   clock := clock w |}).

(** [self.messages.append(m)]. *)
Definition messages_append (m : ChatMessage) : M unit :=
  (l <- self_messages ;; set_messages (l ++ [m])%list)%M.

(** [self.messages.clear()]. *)
Definition messages_clear : M unit := set_messages [].

(** ** Python dicts, in insertion order *)

Definition dict (V : Type) : Type := list (string * V).

(** [d[k]], [None] standing for [KeyError]. *)
Fixpoint dict_get {V} (k : string) (d : dict V) : option V :=
  match d with
  | [] => None
  | (k', v) :: d' => if String.eqb k k' then Some v else dict_get k d'
  end.

(** [d[k] = v]: an existing key keeps its place, a new one goes last. *)
Fixpoint dict_set {V} (k : string) (v : V) (d : dict V) : dict V :=
  match d with
  | [] => [(k, v)]
  | (k', v') :: d' =>
      if String.eqb k k' then (k', v) :: d' else (k', v') :: dict_set k v d'
  end.

Definition dict_keys {V} (d : dict V) : list string := map fst d.
Definition dict_values {V} (d : dict V) : list V := map snd d.

(** ** Python floats and the [random] module

    The arithmetic of [analyze_emotion_with_confidence] is written over a
    number type with the operations the code uses, so that what depends only
    on the shape of the computation is proved for every arithmetic.  The
    instance the code runs is binary64 ([Number_float]), on which the
    computation is evaluated at concrete draws. *)

Class Number (num : Type) : Type := {
  nzero : num;                          (* the [0] that [sum] starts from *)
  nadd : num -> num -> num;
  nsub : num -> num -> num;
  nmul : num -> num -> num;
  ndiv : num -> num -> num;
  ndec : Z -> nat -> num                (* [ndec m e] is the literal m * 10^-e *)
}.

Declare Scope num_scope.
Delimit Scope num_scope with num.
Infix "+" := nadd : num_scope.
Infix "-" := nsub : num_scope.
Infix "*" := nmul : num_scope.
Infix "/" := ndiv : num_scope.

(** Binary64, the arithmetic Python runs: a decimal literal is the double
    nearest to it, which the correctly rounded quotient of the two exactly
    represented integers is. *)
#[export] Instance Number_float : Number float := {
  nzero := PrimFloat.of_uint63 (Uint63.of_Z 0);
  nadd := PrimFloat.add;
  nsub := PrimFloat.sub;
  nmul := PrimFloat.mul;
  ndiv := PrimFloat.div;
  ndec := fun m e =>
    PrimFloat.div (PrimFloat.of_uint63 (Uint63.of_Z m))
                  (PrimFloat.of_uint63 (Uint63.of_Z (10 ^ Z.of_nat e)))
}.

(** The state of the generator: what the next calls of [random.random()]
    return. *)
Definition Rng (num : Type) : Type := nat -> num.

(** [random.random()]. *)
Definition random {num} (g : Rng num) : num * Rng num :=
  (g 0%nat, fun n => g (S n)).

(** [random.uniform(a, b)], which is [a + (b - a) * random()]. *)
Definition uniform {num} `{Number num} (a b : num) (g : Rng num)
  : num * Rng num :=
  let (u, g') := random g in ((a + (b - a) * u)%num, g').

(** [{e: random.uniform(a, b) for e in keys}]. *)
Fixpoint uniform_dict {num} `{Number num} (a b : num) (keys : list string)
  (g : Rng num) : dict num * Rng num :=
  match keys with
  | [] => ([], g)
  | e :: keys' =>
      let (v, g1) := uniform a b g in
      let (d, g2) := uniform_dict a b keys' g1 in
      ((e, v) :: d, g2)
  end.

(** [sum(l)]: left to right, from [0] (Python 3.12 and later compensate the
    rounding of a sum of floats, which can change its last bits). *)
Definition sum {num} `{Number num} (l : list num) : num :=
  fold_left nadd l nzero.

(** ** The keyword sets of the classifier, in the order they are tested *)

Definition keyword_sets : list (Emotion * list string) :=
  [ (JOY,      ["happy"; "joy"; "great"; "wonderful"; "amazing"; "love"; "excited"]);
    (SADNESS,  ["sad"; "sorry"; "bad"; "terrible"; "awful"; "cry"; "hurt"]);
    (ANGER,    ["angry"; "mad"; "furious"; "hate"; "stupid"; "annoying"]);
    (FEAR,     ["scared"; "afraid"; "worried"; "anxious"; "nervous"; "fear"]);
    (SURPRISE, ["wow"; "amazing"; "surprised"; "unbelievable"; "shocked"]);
    (DISGUST,  ["disgusting"; "gross"; "yuck"; "terrible"; "awful"]) ].

(** Some keyword of [kws] occurs in [t]. *)
Definition Hits (kws : list string) (t : string) : Prop :=
  exists w, In w kws /\ Substring w t.

(** [first_hit t sets e]: [e] is the label of the first set of [sets] with a
    keyword occurring in [t], and [NEUTRAL] when no set has one. *)
Inductive first_hit (t : string) : list (Emotion * list string) -> Emotion -> Prop :=
  | first_hit_none : first_hit t [] NEUTRAL
  | first_hit_here e kws rest :
      Hits kws t -> first_hit t ((e, kws) :: rest) e
  | first_hit_later e kws rest e' :
      ~ Hits kws t -> first_hit t rest e' -> first_hit t ((e, kws) :: rest) e'.

(** The classifier as the specification words it: the label of the first
    set, in the order of [sets], with a keyword in [t]. *)
Fixpoint first_label (sets : list (Emotion * list string)) (t : string) : Emotion :=
  match sets with
  | [] => NEUTRAL
  | (e, kws) :: rest =>
      if existsb (fun w => str_in w t) kws then e else first_label rest t
  end.

(** The suppression rule as the specification words it: sadness, anger and
    fear become neutral, every other emotion passes through. *)
Definition suppress (e : Emotion) : Emotion :=
  if existsb (Emotion_eqb e) [SADNESS; ANGER; FEAR] then NEUTRAL else e.

(** The triggers of a response table. *)
Definition triggers (responses : dict string) : list string := dict_keys responses.

Section Services.

(** [str.lower]. *)
Variable lower : string -> string.

(** ** app/services/emotion_service.py *)

(** [EmotionService.analyze_emotion]. *)
Definition analyze_emotion (text : string) : Emotion :=
  let text_lower := lower text in
  (* Joy indicators *)
  if existsb (fun word => str_in word text_lower)
       ["happy"; "joy"; "great"; "wonderful"; "amazing"; "love"; "excited"]
  then JOY
  (* Sadness indicators *)
  else if existsb (fun word => str_in word text_lower)
       ["sad"; "sorry"; "bad"; "terrible"; "awful"; "cry"; "hurt"]
  then SADNESS
  (* Anger indicators *)
  else if existsb (fun word => str_in word text_lower)
       ["angry"; "mad"; "furious"; "hate"; "stupid"; "annoying"]
  then ANGER
  (* Fear indicators *)
  else if existsb (fun word => str_in word text_lower)
       ["scared"; "afraid"; "worried"; "anxious"; "nervous"; "fear"]
  then FEAR
  (* Surprise indicators *)
  else if existsb (fun word => str_in word text_lower)
       ["wow"; "amazing"; "surprised"; "unbelievable"; "shocked"]
  then SURPRISE
  (* Disgust indicators *)
  else if existsb (fun word => str_in word text_lower)
       ["disgusting"; "gross"; "yuck"; "terrible"; "awful"]
  then DISGUST
  (* Default to neutral *)
  else NEUTRAL.

(** [EmotionService.analyze_emotion_with_confidence]: the emotion, the
    confidence, the scores, and the generator after its eight draws. *)
Definition analyze_emotion_with_confidence {num} `{Number num}
  (text : string) (g : Rng num) : (Emotion * num * dict num) * Rng num :=
  let emotion := analyze_emotion text in
  let all_emotions := map Emotion_value Emotion_members in
  let (scores, g1) := uniform_dict (ndec 1 1) (ndec 3 1) all_emotions g in
  let (confidence, g2) := uniform (ndec 7 1) (ndec 95 2) g1 in
  let scores := dict_set (Emotion_value emotion) confidence scores in
  let total := sum (dict_values scores) in
  let scores := map (fun kv => (fst kv, (snd kv / total)%num)) scores in
  ((emotion, confidence, scores), g2).

(** What [analyze_emotion_with_confidence] holds before it normalizes: the
    drawn scores with the detected emotion's entry overwritten by the
    confidence, and the confidence itself. *)
Definition raw_confidence {num} `{Number num} (g : Rng num) : num :=
  fst (uniform (ndec 7 1) (ndec 95 2)
         (snd (uniform_dict (ndec 1 1) (ndec 3 1)
                 (map Emotion_value Emotion_members) g))).

Definition raw_scores {num} `{Number num} (text : string) (g : Rng num)
  : dict num :=
  dict_set (Emotion_value (analyze_emotion text)) (raw_confidence g)
    (fst (uniform_dict (ndec 1 1) (ndec 3 1)
            (map Emotion_value Emotion_members) g)).

(** ** app/services/chat_service.py *)

(** The loop [for key, response in responses.items(): if key in
    content_lower: return response], [None] when it falls through. *)
Fixpoint first_response (responses : dict string) (content_lower : string)
  : option string :=
  match responses with
  | [] => None
  | (key, response) :: responses' =>
      if str_in key content_lower then Some response
      else first_response responses' content_lower
  end.

Definition asd_responses : dict string :=
  [ ("hello", "Hello. How can I help you?");
    ("how are you", "I am functioning normally. Thank you for asking.");
    ("what do you mean", "I mean exactly what I said. Could you be more specific about what part you don't understand?");
    ("thanks", "You're welcome.") ].

Definition nt_responses : dict string :=
  [ ("hello", "Hi there! Great to see you! How's your day going?");
    ("how are you", "I'm doing wonderful, thanks for asking! How about you?");
    ("what do you mean", "Oh, I can see how that might be confusing! Let me explain it differently...");
    ("thanks", "Aww, you're so sweet! Happy to help anytime!") ].

(** [ChatService._generate_asd_response]. *)
Definition _generate_asd_response (content : string) : string :=
  let content_lower := lower content in
  match first_response asd_responses content_lower with
  | Some response => response
  | None =>
      "I understand you said: '" ++ content
      ++ "'. Could you please clarify what you would like me to do?"
  end.

(** [ChatService._generate_nt_response]. *)
Definition _generate_nt_response (content : string) : string :=
  let content_lower := lower content in
  match first_response nt_responses content_lower with
  | Some response => response
  | None =>
      "That's really interesting! I'd love to hear more about what you're thinking."
  end.

(** [ChatService._adjust_expressed_emotion]. *)
Definition _adjust_expressed_emotion (internal_emotion : Emotion) : Emotion :=
  if Emotion_eqb internal_emotion SADNESS then NEUTRAL
  else if Emotion_eqb internal_emotion ANGER then NEUTRAL
  else if Emotion_eqb internal_emotion FEAR then NEUTRAL
  else internal_emotion.

(** [ChatService.process_message]. *)
Definition process_message (request : ChatMessageRequest) (mode : ASDNTMode)
  : M ChatMessageResponse :=
  (id1 <- uuid4 ;;
   t1 <- now ;;
   let user_message :=
     {| id := id1; role := USER; content := req_content request;
        timestamp := t1; emotion := req_emotion request;
        internal_emotion := None |} in
   messages_append user_message ;;;
   let '(response_text, internal_emotion, expressed_emotion) :=
     match mode with
     | ASD =>
         let response_text := _generate_asd_response (req_content request) in
         let internal_emotion := analyze_emotion (req_content request) in
         let expressed_emotion := internal_emotion in
         (response_text, internal_emotion, expressed_emotion)
     | NT =>
         let response_text := _generate_nt_response (req_content request) in
         let internal_emotion := analyze_emotion (req_content request) in
         let expressed_emotion := _adjust_expressed_emotion internal_emotion in
         (response_text, internal_emotion, expressed_emotion)
     end in
   id2 <- uuid4 ;;
   t2 <- now ;;
   let ai_message :=
     {| id := id2; role := ASSISTANT; content := response_text;
        timestamp := t2; emotion := expressed_emotion;
        internal_emotion := Some internal_emotion |} in
   messages_append ai_message ;;;
   t3 <- now ;;
   ret {| resp_message := response_text;
          resp_emotion := expressed_emotion;
          resp_internal_emotion := internal_emotion;
          resp_timestamp := t3 |})%M.

(** [ChatService.get_history]: a copy of the list. *)
Definition get_history : M (list ChatMessage) :=
  (l <- self_messages ;; ret l)%M.

(** [ChatService.clear_history]. *)
Definition clear_history : M bool :=
  (messages_clear ;;; ret true)%M.

(** [send_message] of the chat endpoint: [request.mode or ASDNTMode.ASD]. *)
Definition send_message (request : ChatMessageRequest) : M ChatMessageResponse :=
  let mode := match req_mode request with Some m => m | None => ASD end in
  process_message request mode.

(** The calls a client can make on the service. *)
Inductive call : Type :=
  | Process (request : ChatMessageRequest) (mode : ASDNTMode)
  | GetHistory
  | ClearHistory.

Definition do_call (c : call) (w : World) : World :=
  match c with
  | Process request mode => snd (process_message request mode w)
  | GetHistory => snd (get_history w)
  | ClearHistory => snd (clear_history w)
  end.

(** The world after a sequence of calls, first call first. *)
Definition run (cs : list call) (w : World) : World :=
  fold_left (fun w c => do_call c w) cs w.

End Services.

(** The world at start-up: the module-level [chat_service = ChatService()]. *)
Definition start (us : nat -> string) (ck : nat -> datetime) : World :=
  {| chat_service := ChatService_init; uuids := us; clock := ck |}.

(** The log of a world. *)
Definition history (w : World) : list ChatMessage := messages (chat_service w).

(** The invariant of the log on one message: an assistant message carries an
    internal emotion, a user message carries none. *)
Definition internal_emotion_ok (m : ChatMessage) : Prop :=
  match role m with
  | USER => internal_emotion m = None
  | ASSISTANT => exists e, internal_emotion m = Some e
  | SYSTEM => True
  end.

(** ** Notions the further properties of the services are stated with *)

(** The rank of a label in the order [analyze_emotion] tests the keyword
    sets; neutral, the default, comes last. *)
Definition priority (e : Emotion) : nat :=
  match e with
  | JOY => 0
  | SADNESS => 1
  | ANGER => 2
  | FEAR => 3
  | SURPRISE => 4
  | DISGUST => 5
  | NEUTRAL => 6
  end.

(** The log reads user, assistant, user, assistant, and so on. *)
Fixpoint alternates (l : list ChatMessage) : Prop :=
  match l with
  | [] => True
  | u :: a :: l' => role u = USER /\ role a = ASSISTANT /\ alternates l'
  | _ :: [] => False
  end.

(** The number of [Process] calls of [cs] since its last [ClearHistory],
    counted from [n]. *)
Definition processed_since_clear (cs : list call) (n : nat) : nat :=
  fold_left (fun n c => match c with
                        | Process _ _ => S n
                        | GetHistory => n
                        | ClearHistory => 0%nat
                        end) cs n.

(** What a logged message says, apart from its id and its timestamp. *)
Definition said (m : ChatMessage) : MessageRole * string * Emotion * option Emotion :=
  (role m, content m, emotion m, internal_emotion m).

(** A stream of pairwise distinct ids, to run the service on: the n-th is
    n times the letter i. *)
Fixpoint tally (n : nat) : string :=
  match n with
  | O => ""
  | S n' => String "i" (tally n')
  end.


(** * Properties *)

(** ** Substrings *)

Lemma is_prefix_spec (w t : string) :
  is_prefix w t = true <-> exists post, t = w ++ post.
Proof.
  revert t; induction w as [|a w IH]; intros t; simpl.
  - split; [intros _; now exists t | reflexivity].
  - destruct t as [|b t].
    + split; [discriminate | intros [post H]; discriminate].
    + destruct (Ascii.eqb_spec a b) as [->|Hab].
      * rewrite IH. split; intros [post H]; exists post.
        -- now rewrite H.
        -- now injection H.
      * split; [discriminate | intros [post H]; injection H; intros; subst; tauto].
Qed.

Lemma str_in_spec (w t : string) : str_in w t = true <-> Substring w t.
Proof.
  unfold Substring; induction t as [|b t IH]; simpl.
  - destruct (is_prefix w "") eqn:E.
    + split; [intros _ | reflexivity].
      apply is_prefix_spec in E. destruct E as [post E]. now exists "", post.
    + split; [discriminate|]. intros (pre & post & H).
      destruct pre; [|discriminate]. simpl in H.
      assert (is_prefix w "" = true) by (apply is_prefix_spec; now exists post).
      congruence.
  - destruct (is_prefix w (String b t)) eqn:E.
    + split; [intros _ | reflexivity].
      apply is_prefix_spec in E. destruct E as [post E]. now exists "", post.
    + rewrite IH. split.
      * intros (pre & post & H). exists (String b pre), post. simpl. now rewrite H.
      * intros (pre & post & H). destruct pre as [|c pre].
        -- simpl in H.
           assert (is_prefix w (String b t) = true)
             by (apply is_prefix_spec; now exists post).
           congruence.
        -- simpl in H. injection H; intros. now exists pre, post.
Qed.

Lemma str_in_false (w t : string) : str_in w t = false <-> ~ Substring w t.
Proof.
  rewrite <- str_in_spec. destruct (str_in w t); split; congruence.
Qed.

Lemma existsb_Hits (kws : list string) (t : string) :
  existsb (fun w => str_in w t) kws = true <-> Hits kws t.
Proof.
  unfold Hits. rewrite existsb_exists.
  split; intros (w & Hin & H); exists w; split; auto; now apply str_in_spec.
Qed.

Lemma existsb_not_Hits (kws : list string) (t : string) :
  existsb (fun w => str_in w t) kws = false <-> ~ Hits kws t.
Proof.
  rewrite <- existsb_Hits.
  destruct (existsb _ kws); split; congruence.
Qed.

(** ** The priority scan *)

Lemma first_label_first_hit (sets : list (Emotion * list string)) (t : string) :
  first_hit t sets (first_label sets t).
Proof.
  induction sets as [|[e kws] rest IH]; simpl.
  - constructor.
  - destruct (existsb _ kws) eqn:E.
    + apply first_hit_here. now apply existsb_Hits.
    + apply first_hit_later; [now apply existsb_not_Hits | exact IH].
Qed.

Lemma first_hit_functional (sets : list (Emotion * list string)) (t : string)
  (e1 e2 : Emotion) :
  first_hit t sets e1 -> first_hit t sets e2 -> e1 = e2.
Proof.
  intros H1; revert e2.
  induction H1; intros e2 H2; inversion H2; subst; auto; contradiction.
Qed.

Lemma first_hit_first_label (sets : list (Emotion * list string)) (t : string)
  (e : Emotion) :
  first_hit t sets e <-> first_label sets t = e.
Proof.
  split.
  - intros H. eapply first_hit_functional; [apply first_label_first_hit | exact H].
  - intros <-. apply first_label_first_hit.
Qed.

Section ServicesFacts.

Variable lower : string -> string.

Lemma analyze_emotion_first_label (text : string) :
  analyze_emotion lower text = first_label keyword_sets (lower text).
Proof. reflexivity. Qed.

(** C1. [analyze_emotion] lower-cases the text and scans the keyword sets in
    the order joy, sadness, anger, fear, surprise, disgust: it returns [e]
    exactly when [e] is the label of the first set with a keyword occurring
    in the lowered text, or [e] is neutral and no set has one. *)
Theorem analyze_emotion_priority (text : string) (e : Emotion) :
  map fst keyword_sets = [JOY; SADNESS; ANGER; FEAR; SURPRISE; DISGUST]
  /\ (analyze_emotion lower text = e <-> first_hit (lower text) keyword_sets e).
Proof.
  split; [reflexivity|].
  rewrite analyze_emotion_first_label. symmetry. apply first_hit_first_label.
Qed.

(** ** Disgust, and the two keywords it shares with sadness *)

Lemma Hits_incl (kws kws' : list string) (t : string) :
  incl kws kws' -> Hits kws t -> Hits kws' t.
Proof. intros Hi (w & Hin & H). exists w. split; auto. Qed.

Lemma analyze_emotion_sadness_shadow (text : string) :
  ~ Hits ["happy"; "joy"; "great"; "wonderful"; "amazing"; "love"; "excited"]
      (lower text) ->
  Hits ["terrible"; "awful"] (lower text) ->
  analyze_emotion lower text = SADNESS.
Proof.
  intros HJ HS. unfold analyze_emotion.
  apply existsb_not_Hits in HJ. rewrite HJ.
  assert (H : Hits ["sad"; "sorry"; "bad"; "terrible"; "awful"; "cry"; "hurt"]
                (lower text)).
  { revert HS. apply Hits_incl. intros w [<-|[<-|[]]]; simpl; tauto. }
  apply existsb_Hits in H. now rewrite H.
Qed.

(** C10. [analyze_emotion] returns disgust only if the lowered text contains
    disgusting, gross or yuck; and a text whose only emotion keywords are
    terrible or awful is classified as sadness, not as disgust. *)
Theorem analyze_emotion_disgust (text : string) :
  (analyze_emotion lower text = DISGUST ->
   Hits ["disgusting"; "gross"; "yuck"] (lower text))
  /\ (Hits ["terrible"; "awful"] (lower text) ->
      (forall e kws w, In (e, kws) keyword_sets -> In w kws ->
         Substring w (lower text) -> w = "terrible" \/ w = "awful") ->
      analyze_emotion lower text = SADNESS
      /\ analyze_emotion lower text <> DISGUST).
Proof.
  split.
  - unfold analyze_emotion.
    destruct (existsb _ ["happy"; _; _; _; _; _; _]); [discriminate|].
    destruct (existsb _ ["sad"; _; _; _; _; _; _]) eqn:ES; [discriminate|].
    destruct (existsb _ ["angry"; _; _; _; _; _]); [discriminate|].
    destruct (existsb _ ["scared"; _; _; _; _; _]); [discriminate|].
    destruct (existsb _ ["wow"; _; _; _; _]); [discriminate|].
    destruct (existsb _ ["disgusting"; _; _; _; _]) eqn:ED; [|discriminate].
    intros _. apply existsb_not_Hits in ES. apply existsb_Hits in ED.
    destruct ED as (w & Hin & Hw).
    simpl in Hin.
    destruct Hin as [<-|[<-|[<-|[<-|[<-|[]]]]]];
      match type of Hw with Substring ?k _ =>
        first [ exists k; simpl; tauto
              | exfalso; apply ES; exists k; simpl; tauto ]
      end.
  - intros HS Honly.
    assert (E : analyze_emotion lower text = SADNESS).
    { apply analyze_emotion_sadness_shadow; [|exact HS].
      intros (w & Hin & Hw).
      destruct (Honly JOY _ w (or_introl eq_refl) Hin Hw) as [->| ->];
        simpl in Hin; repeat (destruct Hin as [Hin|Hin]; [discriminate|]);
        exact Hin. }
    split; [exact E | rewrite E; discriminate].
Qed.

(** ** The response tables *)

Lemma first_response_None (responses : dict string) (t : string) :
  first_response responses t = None
  <-> forall k, In k (triggers responses) -> ~ Substring k t.
Proof.
  unfold triggers, dict_keys.
  induction responses as [|[k r] rest IH]; simpl.
  - split; [intros _ k [] | reflexivity].
  - destruct (str_in k t) eqn:E.
    + split; [discriminate|]. intros H. exfalso.
      apply (H k); [now left | now apply str_in_spec].
    + rewrite IH. split.
      * intros H k' [<-|Hin]; [now apply str_in_false | now apply H].
      * intros H k' Hin. apply H. now right.
Qed.

Lemma first_response_Some (responses : dict string) (t r : string) :
  first_response responses t = Some r
  <-> exists before k after,
        responses = (before ++ (k, r) :: after)%list
        /\ Substring k t
        /\ forall k', In k' (triggers before) -> ~ Substring k' t.
Proof.
  unfold triggers, dict_keys.
  revert r; induction responses as [|[k0 r0] rest IH]; intros r; simpl.
  - split; [discriminate|]. intros (before & k & after & H & _).
    destruct before; discriminate.
  - destruct (str_in k0 t) eqn:E.
    + split.
      * intros [= <-]. exists [], k0, rest. simpl.
        split; [reflexivity|]. split; [now apply str_in_spec | tauto].
      * intros (before & k & after & H & Hk & Hb).
        destruct before as [|[k1 r1] before]; simpl in H.
        -- now injection H as _ ->.
        -- injection H as -> -> _. exfalso.
           apply (Hb k1); [now left | now apply str_in_spec].
    + rewrite IH. split.
      * intros (before & k & after & -> & Hk & Hb).
        exists ((k0, r0) :: before), k, after. simpl.
        split; [reflexivity|]. split; [exact Hk|].
        intros k' [<-|Hin]; [now apply str_in_false | now apply Hb].
      * intros (before & k & after & H & Hk & Hb).
        destruct before as [|[k1 r1] before]; simpl in H.
        -- injection H as -> _ _. apply str_in_spec in Hk. congruence.
        -- injection H as _ _ ->. exists before, k, after.
           split; [reflexivity|]. split; [exact Hk|].
           intros k' Hin. apply Hb. now right.
Qed.

(** C2, as the code has it.  The social table has the triggers of the direct
    table, tested in the same order, and the reply of the first trigger
    occurring in the lowered content; when no trigger occurs its fallback is
    one fixed sentence, whatever the content, while the direct fallback
    wraps the content in its template. *)
Theorem nt_response_table (content : string) :
  triggers nt_responses = ["hello"; "how are you"; "what do you mean"; "thanks"]
  /\ triggers asd_responses = triggers nt_responses
  /\ (forall before k r after,
        nt_responses = (before ++ (k, r) :: after)%list ->
        Substring k (lower content) ->
        (forall k', In k' (triggers before) -> ~ Substring k' (lower content)) ->
        _generate_nt_response lower content = r)
  /\ ((forall k, In k (triggers nt_responses) -> ~ Substring k (lower content)) ->
      _generate_nt_response lower content
        = "That's really interesting! I'd love to hear more about what you're thinking."
      /\ _generate_asd_response lower content
        = "I understand you said: '" ++ content
          ++ "'. Could you please clarify what you would like me to do?").
Proof.
  split; [reflexivity|]. split; [reflexivity|]. split.
  - intros before k r after Ht Hk Hb. unfold _generate_nt_response.
    assert (E : first_response nt_responses (lower content) = Some r)
      by (apply first_response_Some; now exists before, k, after).
    now rewrite E.
  - intros Hno. unfold _generate_nt_response, _generate_asd_response.
    assert (En : first_response nt_responses (lower content) = None)
      by now apply first_response_None.
    assert (Ea : first_response asd_responses (lower content) = None)
      by now apply first_response_None.
    now rewrite En, Ea.
Qed.

(** ** Expressed and internal emotion *)

Lemma adjust_is_suppress (e : Emotion) : _adjust_expressed_emotion e = suppress e.
Proof. now destruct e. Qed.

(** C4. In social mode the expressed emotion of the reply is the internal
    emotion, the classifier's label of the content, after suppression:
    neutral when the internal emotion is sadness, anger or fear, and the
    internal emotion itself otherwise. *)
Theorem process_message_nt_emotion (request : ChatMessageRequest) (w : World) :
  let resp := fst (process_message lower request NT w) in
  resp_internal_emotion resp = analyze_emotion lower (req_content request)
  /\ resp_emotion resp = suppress (resp_internal_emotion resp)
  /\ resp_emotion resp
     = match resp_internal_emotion resp with
       | SADNESS | ANGER | FEAR => NEUTRAL
       | JOY => JOY
       | SURPRISE => SURPRISE
       | DISGUST => DISGUST
       | NEUTRAL => NEUTRAL
       end.
Proof.
  simpl. split; [reflexivity|].
  rewrite adjust_is_suppress. split; [reflexivity|].
  now destruct (analyze_emotion lower (req_content request)).
Qed.

(** C5. In direct mode the expressed emotion of the reply is its internal
    emotion, which is the classifier's label of the content. *)
Theorem process_message_asd_emotion (request : ChatMessageRequest) (w : World) :
  let resp := fst (process_message lower request ASD w) in
  resp_emotion resp = resp_internal_emotion resp
  /\ resp_internal_emotion resp = analyze_emotion lower (req_content request).
Proof. simpl. split; reflexivity. Qed.

(** ** The message log *)

(** C6. A call of [process_message] leaves the stored messages as they are
    and appends two: the user's message, then the assistant's, whose
    content is the reply (the fallback reply included). *)
Theorem process_message_appends (request : ChatMessageRequest) (mode : ASDNTMode)
  (w : World) :
  let resp := fst (process_message lower request mode w) in
  let w' := snd (process_message lower request mode w) in
  exists u a,
    history w' = (history w ++ [u; a])%list
    /\ role u = USER /\ content u = req_content request
    /\ role a = ASSISTANT /\ content a = resp_message resp
    /\ List.length (history w') = (List.length (history w) + 2)%nat.
Proof.
  destruct w as [[l] us ck]. destruct mode; simpl; unfold history; simpl;
    eexists; eexists;
    (split; [rewrite <- app_assoc; reflexivity|]);
    repeat (split; [reflexivity|]);
    rewrite !length_app; simpl; lia.
Qed.

Lemma process_message_ok (request : ChatMessageRequest) (mode : ASDNTMode)
  (w : World) :
  Forall internal_emotion_ok (history w) ->
  Forall internal_emotion_ok (history (snd (process_message lower request mode w))).
Proof.
  intros H. destruct w as [[l] us ck].
  destruct mode; simpl; unfold history in *; simpl in *;
    rewrite <- app_assoc; (apply Forall_app; split; [exact H|]);
    repeat constructor; unfold internal_emotion_ok; simpl; eauto.
Qed.

Lemma do_call_ok (c : call) (w : World) :
  Forall internal_emotion_ok (history w) ->
  Forall internal_emotion_ok (history (do_call lower c w)).
Proof.
  destruct c as [request mode| |]; simpl.
  - apply process_message_ok.
  - destruct w as [[l] us ck]. exact (fun H => H).
  - intros _. constructor.
Qed.

Lemma run_ok (cs : list call) (w : World) :
  Forall internal_emotion_ok (history w) ->
  Forall internal_emotion_ok (history (run lower cs w)).
Proof.
  revert w; induction cs as [|c cs IH]; intros w H; simpl.
  - exact H.
  - apply IH. now apply do_call_ok.
Qed.

(** C8. In the log reached from start-up by any sequence of calls of the
    service, every assistant message has its internal emotion set and every
    user message has it unset. *)
Theorem run_internal_emotion (cs : list call) (us : nat -> string)
  (ck : nat -> datetime) :
  Forall internal_emotion_ok (history (run lower cs (start us ck))).
Proof. apply run_ok. constructor. Qed.

(** C9. [clear_history] returns [True] and leaves the log empty, from any
    state; clearing again changes nothing; and [get_history] right after it
    returns the empty list. *)
Theorem clear_history_empties (w : World) :
  let w1 := snd (clear_history w) in
  fst (clear_history w) = true
  /\ history w1 = []
  /\ fst (clear_history w1) = true
  /\ snd (clear_history w1) = w1
  /\ fst (get_history w1) = []
  /\ snd (get_history w1) = w1.
Proof. repeat split. Qed.

(** ** Dicts *)

Lemma dict_set_keys {V} (k : string) (v : V) (d : dict V) :
  In k (dict_keys d) -> dict_keys (dict_set k v d) = dict_keys d.
Proof.
  unfold dict_keys. induction d as [|[k' v'] d IH]; simpl; [tauto|].
  intros Hin. destruct (String.eqb_spec k k') as [->|Hne]; simpl.
  - reflexivity.
  - f_equal. apply IH. destruct Hin as [E|Hin]; [congruence | exact Hin].
Qed.

Lemma dict_get_set {V} (k : string) (v : V) (d : dict V) :
  dict_get k (dict_set k v d) = Some v.
Proof.
  induction d as [|[k' v'] d IH]; simpl.
  - now rewrite String.eqb_refl.
  - destruct (String.eqb k k') eqn:E; simpl; now rewrite E.
Qed.

Lemma dict_set_values_Forall {V} (P : V -> Prop) (k : string) (v : V) (d : dict V) :
  P v -> Forall P (dict_values d) -> Forall P (dict_values (dict_set k v d)).
Proof.
  unfold dict_values. intros Hv. induction d as [|[k' v'] d IH]; simpl; intros H.
  - now constructor.
  - inversion H; subst. destruct (String.eqb k k'); simpl; constructor; auto.
Qed.

Lemma dict_get_values {V} (k : string) (d : dict V) (v : V) :
  dict_get k d = Some v -> In v (dict_values d).
Proof.
  unfold dict_values. induction d as [|[k' v'] d IH]; simpl; [discriminate|].
  destruct (String.eqb k k'); [intros [= ->]; now left | right; auto].
Qed.

Lemma dict_get_map {V W} (f : V -> W) (k : string) (d : dict V) :
  dict_get k (map (fun kv => (fst kv, f (snd kv))) d)
  = option_map f (dict_get k d).
Proof.
  induction d as [|[k' v'] d IH]; simpl; [reflexivity|].
  now destruct (String.eqb k k').
Qed.

Lemma dict_map_keys {V W} (f : V -> W) (d : dict V) :
  dict_keys (map (fun kv => (fst kv, f (snd kv))) d) = dict_keys d.
Proof. unfold dict_keys. rewrite map_map. reflexivity. Qed.

Lemma dict_map_values {V W} (f : V -> W) (d : dict V) :
  dict_values (map (fun kv => (fst kv, f (snd kv))) d) = map f (dict_values d).
Proof. unfold dict_values. now rewrite !map_map. Qed.

(** ** The draws *)

Lemma uniform_dict_keys {num} `{Number num} (a b : num) (keys : list string)
  (g : Rng num) :
  dict_keys (fst (uniform_dict a b keys g)) = keys.
Proof.
  revert g; induction keys as [|e keys IH]; intros g; simpl; [reflexivity|].
  specialize (IH (fun n => g (S n))).
  destruct (uniform_dict a b keys _) as [d g2]. simpl in *. now rewrite IH.
Qed.

Lemma uniform_dict_rng {num} `{Number num} (a b : num) (keys : list string)
  (g : Rng num) (n : nat) :
  snd (uniform_dict a b keys g) n = g (List.length keys + n)%nat.
Proof.
  revert g; induction keys as [|e keys IH]; intros g; simpl; [reflexivity|].
  specialize (IH (fun n => g (S n))).
  destruct (uniform_dict a b keys _) as [d g2]. simpl in *. exact IH.
Qed.

Lemma analyze_emotion_with_confidence_raw {num} `{Number num} (text : string)
  (g : Rng num) :
  fst (analyze_emotion_with_confidence lower text g)
  = (analyze_emotion lower text,
     raw_confidence g,
     map (fun kv => (fst kv, (snd kv / sum (dict_values (raw_scores lower text g)))%num))
       (raw_scores lower text g)).
Proof.
  unfold analyze_emotion_with_confidence, raw_scores, raw_confidence.
  destruct (uniform_dict _ _ _ g) as [d g1]. simpl.
  reflexivity.
Qed.

Lemma Emotion_value_member (e : Emotion) :
  In (Emotion_value e) (map Emotion_value Emotion_members).
Proof. destruct e; simpl; tauto. Qed.

Lemma raw_scores_keys {num} `{Number num} (text : string) (g : Rng num) :
  dict_keys (raw_scores lower text g) = map Emotion_value Emotion_members.
Proof.
  unfold raw_scores. rewrite dict_set_keys; rewrite uniform_dict_keys;
    [reflexivity | apply Emotion_value_member].
Qed.

Lemma raw_scores_primary {num} `{Number num} (text : string) (g : Rng num) :
  dict_get (Emotion_value (analyze_emotion lower text)) (raw_scores lower text g)
  = Some (raw_confidence g).
Proof. apply dict_get_set. Qed.

(** ** The scores *)

(** The keys of the returned scores, whatever the arithmetic. *)
Lemma scores_keys {num} `{Number num} (text : string) (g : Rng num) :
  dict_keys (snd (fst (analyze_emotion_with_confidence lower text g)))
  = map Emotion_value Emotion_members.
Proof.
  rewrite analyze_emotion_with_confidence_raw. cbn [fst snd].
  rewrite (dict_map_keys (fun v => ndiv v _)). apply raw_scores_keys.
Qed.

(** The primary label's score is the confidence over the total of the raw
    scores, whatever the arithmetic. *)
Lemma scores_primary {num} `{Number num} (text : string) (g : Rng num) :
  let '(emotion, confidence, scores) :=
    fst (analyze_emotion_with_confidence lower text g) in
  dict_get (Emotion_value emotion) scores
  = Some (confidence / sum (dict_values (raw_scores lower text g)))%num.
Proof.
  rewrite analyze_emotion_with_confidence_raw.
  rewrite (dict_get_map (fun v => ndiv v _)), raw_scores_primary. reflexivity.
Qed.




End ServicesFacts.

(** * The code on concrete inputs, with [lower_ascii] for [str.lower] *)

Example classify_empty : analyze_emotion lower_ascii "" = NEUTRAL.
Proof. reflexivity. Qed.

Example classify_no_keyword :
  analyze_emotion lower_ascii "The train leaves at nine." = NEUTRAL.
Proof. reflexivity. Qed.

Example classify_happy : analyze_emotion lower_ascii "I am very happy today" = JOY.
Proof. reflexivity. Qed.

Example classify_sad_and_scared :
  analyze_emotion lower_ascii "I am SAD and scared" = SADNESS.
Proof. reflexivity. Qed.

Example classify_yuck : analyze_emotion lower_ascii "Yuck!" = DISGUST.
Proof. reflexivity. Qed.

Example classify_amazing : analyze_emotion lower_ascii "Amazing." = JOY.
Proof. reflexivity. Qed.

Example process_hello_direct (w : World) :
  let resp := fst (process_message lower_ascii
                     {| req_content := "hello"; req_emotion := NEUTRAL;
                        req_mode := None |} ASD w) in
  resp_message resp = "Hello. How can I help you?"
  /\ resp_emotion resp = NEUTRAL /\ resp_internal_emotion resp = NEUTRAL.
Proof. repeat split. Qed.

Example process_hello_social (w : World) :
  resp_message (fst (process_message lower_ascii
                       {| req_content := "hello"; req_emotion := NEUTRAL;
                          req_mode := Some NT |} NT w))
  = "Hi there! Great to see you! How's your day going?".
Proof. reflexivity. Qed.

Example process_hate_social (w : World) :
  let resp := fst (process_message lower_ascii
                     {| req_content := "I hate this"; req_emotion := NEUTRAL;
                        req_mode := Some NT |} NT w) in
  resp_internal_emotion resp = ANGER /\ resp_emotion resp = NEUTRAL.
Proof. repeat split. Qed.

Example send_message_default_mode (request : ChatMessageRequest) (w : World) :
  req_mode request = None ->
  send_message lower_ascii request w = process_message lower_ascii request ASD w.
Proof. unfold send_message. now intros ->. Qed.

(** ** Instances of the theorems that have hypotheses *)

(** [analyze_emotion_disgust] at "So gross" (disgust) and at
    "This is TERRIBLE" (sadness). *)
Lemma analyze_emotion_disgust_witness :
  Hits ["disgusting"; "gross"; "yuck"] (lower_ascii "So gross")
  /\ analyze_emotion lower_ascii "This is TERRIBLE" = SADNESS
  /\ analyze_emotion lower_ascii "This is TERRIBLE" <> DISGUST.
Proof.
  split.
  - apply (proj1 (analyze_emotion_disgust lower_ascii "So gross")). reflexivity.
  - apply (proj2 (analyze_emotion_disgust lower_ascii "This is TERRIBLE")).
    + apply existsb_Hits. reflexivity.
    + intros e kws w Hin Hw Hs. apply str_in_spec in Hs.
      simpl in Hin.
      repeat (destruct Hin as [Hin|Hin];
              [injection Hin as <- <-; simpl in Hw;
               repeat (destruct Hw as [<-|Hw];
                       [first [now left | now right | discriminate Hs]|]);
               destruct Hw |]).
      destruct Hin.
Defined.

(** [nt_response_table] at a content with a trigger and at one with none. *)
Lemma nt_response_table_witness :
  _generate_nt_response lower_ascii "Well, HELLO there"
    = "Hi there! Great to see you! How's your day going?"
  /\ _generate_nt_response lower_ascii "xyz"
    = "That's really interesting! I'd love to hear more about what you're thinking."
  /\ _generate_asd_response lower_ascii "xyz"
    = "I understand you said: 'xyz'. Could you please clarify what you would like me to do?".
Proof.
  split.
  - destruct (nt_response_table lower_ascii "Well, HELLO there") as (_ & _ & H & _).
    apply (H [] "hello" _ (tl nt_responses)).
    + reflexivity.
    + apply str_in_spec. reflexivity.
    + intros k' [].
  - destruct (nt_response_table lower_ascii "xyz") as (_ & _ & _ & H).
    apply H. apply first_response_None. reflexivity.
Defined.

(** ** Where the code departs from the specification *)

(** C2 as stated fails: no trigger occurs in "xyz", and the social-mode reply
    to it does not contain "xyz", while the direct-mode reply does. *)
Lemma nt_fallback_does_not_echo :
  first_response nt_responses (lower_ascii "xyz") = None
  /\ first_response asd_responses (lower_ascii "xyz") = None
  /\ ~ Substring "xyz" (_generate_nt_response lower_ascii "xyz")
  /\ Substring "xyz" (_generate_asd_response lower_ascii "xyz").
Proof.
  split; [reflexivity|]. split; [reflexivity|]. split.
  - apply str_in_false. reflexivity.
  - apply str_in_spec. reflexivity.
Qed.


(** More of the same run: the returned confidence is the double 0.825, the
    primary label's score is smaller, and the scores sum to within 1e-6 of
    1. *)
Example confidence_binary64 :
  let '(emotion, confidence, scores) :=
    fst (analyze_emotion_with_confidence (num := float) lower_ascii
           "I am very happy today" (fun _ => 0.5%float)) in
  emotion = JOY
  /\ PrimFloat.eqb confidence (ndec 825 3) = true
  /\ exists p, dict_get (Emotion_value emotion) scores = Some p
       /\ PrimFloat.ltb p confidence = true
       /\ PrimFloat.leb (PrimFloat.abs (sum (dict_values scores) - ndec 1 0)%num)
            (ndec 1 6) = true.
Proof.
  vm_compute. split; [reflexivity|]. split; [reflexivity|].
  eexists. repeat split.
Qed.

(** * Further properties of the services *)

Lemma Substring_trans (a b c : string) :
  Substring a b -> Substring b c -> Substring a c.
Proof.
  intros (p1 & s1 & ->) (p2 & s2 & ->).
  exists (p2 ++ p1), (s1 ++ s2).
  induction p2 as [|x p2 IH]; simpl.
  - induction p1 as [|y p1 IH1]; simpl.
    + induction a as [|z a IHa]; simpl; [reflexivity | now rewrite IHa].
    + now rewrite IH1.
  - now rewrite IH.
Qed.

Lemma Hits_extend (kws : list string) (t t' : string) :
  Substring t t' -> Hits kws t -> Hits kws t'.
Proof.
  intros Hs (w & Hin & Hw). exists w. split; [exact Hin|].
  eapply Substring_trans; eassumption.
Qed.

Section MoreServicesFacts.

Variable lower : string -> string.

(** ** The classifier *)

(** X1. [analyze_emotion] returns surprise only if the lowered text contains
    wow, surprised, unbelievable or shocked: the keyword amazing of the
    surprise set never decides, since a text that contains it is joy. *)
Theorem analyze_emotion_surprise (text : string) :
  (analyze_emotion lower text = SURPRISE ->
   Hits ["wow"; "surprised"; "unbelievable"; "shocked"] (lower text))
  /\ (Substring "amazing" (lower text) -> analyze_emotion lower text = JOY).
Proof.
  split.
  - unfold analyze_emotion.
    destruct (existsb _ ["happy"; _; _; _; _; _; _]) eqn:EJ; [discriminate|].
    destruct (existsb _ ["sad"; _; _; _; _; _; _]); [discriminate|].
    destruct (existsb _ ["angry"; _; _; _; _; _]); [discriminate|].
    destruct (existsb _ ["scared"; _; _; _; _; _]); [discriminate|].
    destruct (existsb _ ["wow"; _; _; _; _]) eqn:ES; [|].
    2: destruct (existsb _ ["disgusting"; _; _; _; _]); discriminate.
    intros _. apply existsb_not_Hits in EJ. apply existsb_Hits in ES.
    destruct ES as (w & Hin & Hw). simpl in Hin.
    destruct Hin as [<-|[<-|[<-|[<-|[<-|[]]]]]];
      match type of Hw with Substring ?k _ =>
        first [ exists k; simpl; tauto
              | exfalso; apply EJ; exists k; simpl; tauto ]
      end.
  - intros H. unfold analyze_emotion.
    assert (E : Hits ["happy"; "joy"; "great"; "wonderful"; "amazing"; "love"; "excited"]
                  (lower text)) by (exists "amazing"; simpl; tauto).
    apply existsb_Hits in E. now rewrite E.
Qed.

(** X2. Text around a text can only move its label to an earlier place in
    the order of the tests: if the lowered text of [text] occurs in the
    lowered text of [text'], the label of [text'] has at most the rank of
    the label of [text]. *)
Theorem analyze_emotion_extend (text text' : string) :
  Substring (lower text) (lower text') ->
  (priority (analyze_emotion lower text') <= priority (analyze_emotion lower text))%nat.
Proof.
  intros Hs. rewrite !analyze_emotion_first_label.
  assert (G : forall sets (order : Emotion -> nat),
             (forall e, order e <= order NEUTRAL)%nat ->
             StronglySorted (fun a b => order (fst a) <= order (fst b))%nat sets ->
             (order (first_label sets (lower text'))
              <= order (first_label sets (lower text)))%nat).
  { intros sets order Hmax. induction 1 as [|[e kws] rest Hrest IH Hhd]; simpl.
    - apply Nat.le_refl.
    - destruct (existsb (fun w => str_in w (lower text)) kws) eqn:E.
      + apply existsb_Hits in E. apply (Hits_extend _ _ _ Hs) in E.
        apply existsb_Hits in E. rewrite E. apply Nat.le_refl.
      + destruct (existsb (fun w => str_in w (lower text')) kws); [|exact IH].
        clear - Hhd Hmax. induction rest as [|[e2 k2] rest IHr]; simpl.
        * apply Hmax.
        * inversion Hhd; subst. destruct (existsb _ k2); [assumption|].
          apply IHr. assumption. }
  apply (G keyword_sets priority).
  - intros e; destruct e; simpl; lia.
  - unfold keyword_sets. repeat constructor; simpl; lia.
Qed.

(** ** The response tables *)

Lemma first_response_aligned (d1 d2 : dict string) (t : string) :
  triggers d1 = triggers d2 ->
  (first_response d1 t = None /\ first_response d2 t = None
   /\ forall k, In k (triggers d1) -> ~ Substring k t)
  \/ exists i k r1 r2,
       nth_error d1 i = Some (k, r1) /\ nth_error d2 i = Some (k, r2)
       /\ Substring k t
       /\ (forall j k' r', (j < i)%nat -> nth_error d1 j = Some (k', r') ->
            ~ Substring k' t)
       /\ first_response d1 t = Some r1 /\ first_response d2 t = Some r2.
Proof.
  unfold triggers, dict_keys.
  revert d2; induction d1 as [|[k r1] d1 IH]; intros [|[k2 r2] d2] E;
    try discriminate.
  - left. simpl. repeat split; auto.
  - simpl in E. injection E as <- E. simpl.
    destruct (str_in k t) eqn:Ek.
    + right. exists 0%nat, k, r1, r2. simpl. repeat split; auto.
      * now apply str_in_spec.
      * intros j k' r' Hj. inversion Hj.
    + destruct (IH d2 E) as [(H1 & H2 & H3)|(i & k' & a & b & H1 & H2 & H3 & H4 & H5 & H6)].
      * left. repeat split; auto.
        intros k' [<-|Hin]; [now apply str_in_false | now apply H3].
      * right. exists (S i), k', a, b. simpl. repeat split; auto.
        intros [|j] k'' r'' Hj Hn; simpl in Hn.
        -- injection Hn as <- <-. now apply str_in_false.
        -- apply (H4 j k'' r''); [lia | exact Hn].
Qed.

(** X3. The two modes fire the same rule: for every content, either no
    trigger occurs in the lowered content and both generators give their
    fallback, or the first trigger that occurs is at the same place in both
    tables and each generator gives the reply its table has there. *)
Theorem responses_same_rule (content : string) :
  ((forall k, In k (triggers asd_responses) -> ~ Substring k (lower content))
   /\ _generate_asd_response lower content
      = "I understand you said: '" ++ content
        ++ "'. Could you please clarify what you would like me to do?"
   /\ _generate_nt_response lower content
      = "That's really interesting! I'd love to hear more about what you're thinking.")
  \/ exists i k asd_reply nt_reply,
       nth_error asd_responses i = Some (k, asd_reply)
       /\ nth_error nt_responses i = Some (k, nt_reply)
       /\ Substring k (lower content)
       /\ (forall j k' r', (j < i)%nat ->
            nth_error asd_responses j = Some (k', r') ->
            ~ Substring k' (lower content))
       /\ _generate_asd_response lower content = asd_reply
       /\ _generate_nt_response lower content = nt_reply.
Proof.
  unfold _generate_asd_response, _generate_nt_response.
  destruct (first_response_aligned asd_responses nt_responses (lower content)
              eq_refl)
    as [(H1 & H2 & H3)|(i & k & a & b & H1 & H2 & H3 & H4 & H5 & H6)].
  - left. rewrite H1, H2. auto.
  - right. exists i, k, a, b. rewrite H5, H6. auto 10.
Qed.

(** ** One call of [process_message] *)

Lemma process_message_effect (request : ChatMessageRequest) (mode : ASDNTMode)
  (w : World) :
  let resp := fst (process_message lower request mode w) in
  let w' := snd (process_message lower request mode w) in
  history w'
  = (history w
     ++ [ {| id := uuids w 0%nat; role := USER;
             content := req_content request; timestamp := clock w 0%nat;
             emotion := req_emotion request; internal_emotion := None |};
          {| id := uuids w 1%nat; role := ASSISTANT;
             content := resp_message resp; timestamp := clock w 1%nat;
             emotion := resp_emotion resp;
             internal_emotion := Some (resp_internal_emotion resp) |} ])%list
  /\ resp_timestamp resp = clock w 2%nat
  /\ (forall n, uuids w' n = uuids w (2 + n)%nat)
  /\ (forall n, clock w' n = clock w (3 + n)%nat).
Proof.
  destruct w as [[l] us ck].
  destruct mode; simpl; unfold history; simpl; rewrite <- app_assoc;
    repeat split.
Qed.

(** X4. What a caller sees of [process_message]: a [get_history] right after
    it returns the former log followed by the user's message, with the
    request's content and declared emotion and no internal emotion, and the
    assistant's message, which carries the reply's text and both its
    emotions; the two ids are the next two uuids, and the timestamps of the
    two messages and of the reply are the next three clock readings. *)
Theorem process_message_logged (request : ChatMessageRequest) (mode : ASDNTMode)
  (w : World) :
  let resp := fst (process_message lower request mode w) in
  let w' := snd (process_message lower request mode w) in
  fst (get_history w')
  = (fst (get_history w)
     ++ [ {| id := uuids w 0%nat; role := USER;
             content := req_content request; timestamp := clock w 0%nat;
             emotion := req_emotion request; internal_emotion := None |};
          {| id := uuids w 1%nat; role := ASSISTANT;
             content := resp_message resp; timestamp := clock w 1%nat;
             emotion := resp_emotion resp;
             internal_emotion := Some (resp_internal_emotion resp) |} ])%list
  /\ resp_timestamp resp = clock w 2%nat.
Proof.
  destruct (process_message_effect request mode w) as (H & Ht & _).
  split; [exact H | exact Ht].
Qed.

(** X5. The reply depends on the content and the mode alone: neither the
    log, the ids, the clock nor the emotion the request declares changes its
    text or its emotions. *)
Theorem process_message_reply_only_content (r1 r2 : ChatMessageRequest)
  (mode : ASDNTMode) (w1 w2 : World) :
  req_content r1 = req_content r2 ->
  let a := fst (process_message lower r1 mode w1) in
  let b := fst (process_message lower r2 mode w2) in
  resp_message a = resp_message b
  /\ resp_emotion a = resp_emotion b
  /\ resp_internal_emotion a = resp_internal_emotion b.
Proof.
  intros E. destruct mode; simpl; rewrite E; repeat split.
Qed.

(** X6. The chat endpoint, which runs a request without a mode in direct
    mode: the internal emotion of its reply is the classifier's label of the
    content, and the expressed emotion is that same label except when the
    request asks for social mode and the label is sadness, anger or fear,
    where it is neutral. *)
Theorem send_message_emotions (request : ChatMessageRequest) (w : World) :
  let resp := fst (send_message lower request w) in
  resp_internal_emotion resp = analyze_emotion lower (req_content request)
  /\ (resp_emotion resp = resp_internal_emotion resp
      \/ (req_mode request = Some NT
          /\ In (resp_internal_emotion resp) [SADNESS; ANGER; FEAR]
          /\ resp_emotion resp = NEUTRAL))
  /\ (req_mode request = Some NT ->
      ~ In (resp_emotion resp) [SADNESS; ANGER; FEAR]).
Proof.
  unfold send_message.
  destruct (req_mode request) as [[|]|]; simpl;
    (split; [reflexivity|]);
    (split; [| try discriminate]); auto.
  - destruct (analyze_emotion lower (req_content request)); simpl; auto 10.
  - intros _.
    destruct (analyze_emotion lower (req_content request)); simpl;
      intuition discriminate.
Qed.

(** ** The log over a run *)

Lemma run_app (cs1 cs2 : list call) (w : World) :
  run lower (cs1 ++ cs2) w = run lower cs2 (run lower cs1 w).
Proof. unfold run. apply fold_left_app. Qed.

Lemma alternates_app (l : list ChatMessage) (u a : ChatMessage) :
  role u = USER -> role a = ASSISTANT ->
  alternates l -> alternates (l ++ [u; a]).
Proof.
  intros Hu Ha.
  assert (G : forall n l, (List.length l <= n)%nat ->
                alternates l -> alternates (l ++ [u; a])).
  { induction n as [|n IH]; intros [|x [|y l']] Hn H; simpl in *;
      try lia; try tauto.
    destruct H as (Hx & Hy & H). repeat split; auto.
    apply IH; [lia | exact H]. }
  apply (G (List.length l)). apply Nat.le_refl.
Qed.

Lemma do_call_alternates (c : call) (w : World) (n : nat) :
  alternates (history w) /\ List.length (history w) = (2 * n)%nat ->
  alternates (history (do_call lower c w))
  /\ List.length (history (do_call lower c w))
     = (2 * processed_since_clear [c] n)%nat.
Proof.
  intros [Ha Hl]. destruct c as [request mode| |]; simpl.
  - destruct (process_message_effect request mode w) as (-> & _). split.
    + now apply alternates_app.
    + rewrite length_app, Hl. simpl. lia.
  - destruct w as [[l] us ck]. now split.
  - now split.
Qed.

(** X7. In the log reached from start-up by any sequence of calls the
    messages alternate, user then assistant, from the first one on, and
    there are two for each [process_message] since the last
    [clear_history]. *)
Theorem run_alternates (cs : list call) (us : nat -> string)
  (ck : nat -> datetime) :
  alternates (history (run lower cs (start us ck)))
  /\ List.length (history (run lower cs (start us ck)))
     = (2 * processed_since_clear cs 0)%nat.
Proof.
  assert (G : forall l w n,
             alternates (history w) /\ List.length (history w) = (2 * n)%nat ->
             alternates (history (run lower l w))
             /\ List.length (history (run lower l w))
                = (2 * processed_since_clear l n)%nat).
  { induction l as [|c l IH]; intros w n H; [exact H|].
    apply (IH (do_call lower c w)). now apply do_call_alternates. }
  apply G. now split.
Qed.

Lemma StronglySorted_snoc (l : list Z) (x : Z) :
  StronglySorted Z.le l -> Forall (fun y => y <= x)%Z l ->
  StronglySorted Z.le (l ++ [x]).
Proof.
  induction 1 as [|y l Hl IH Hy]; intros Hx; simpl.
  - repeat constructor.
  - inversion Hx; subst. constructor; [now apply IH|].
    apply Forall_app. split; [exact Hy | now repeat constructor].
Qed.

(** X8. When the clock never goes back, the timestamps of the log reached
    from start-up by any sequence of calls are in non-decreasing order. *)
Theorem run_timestamps_sorted (cs : list call) (us : nat -> string)
  (ck : nat -> datetime) :
  (forall n, ck n <= ck (S n))%Z ->
  StronglySorted Z.le (map timestamp (history (run lower cs (start us ck)))).
Proof.
  intros Hck.
  assert (G : forall l w,
             ((forall n, clock w n <= clock w (S n))%Z
              /\ Forall (fun y => y <= clock w 0%nat)%Z (map timestamp (history w))
              /\ StronglySorted Z.le (map timestamp (history w))) ->
             StronglySorted Z.le (map timestamp (history (run lower l w)))).
  { induction l as [|c l IH]; intros w (Hm & Hb & Hs); [exact Hs|].
    apply (IH (do_call lower c w)). destruct c as [request mode| |]; simpl.
    - destruct (process_message_effect request mode w) as (-> & _ & _ & Hc).
      pose proof (Hm 0%nat). pose proof (Hm 1%nat). pose proof (Hm 2%nat).
      split; [|split].
      + intros n. rewrite !Hc. apply Hm.
      + rewrite Hc, map_app. simpl. apply Forall_app. split.
        * eapply Forall_impl; [|exact Hb]. simpl. intros; lia.
        * repeat constructor; simpl; lia.
      + rewrite map_app. simpl.
        change [clock w 0%nat; clock w 1%nat]
          with ([clock w 0%nat] ++ [clock w 1%nat])%list.
        rewrite app_assoc.
        apply StronglySorted_snoc; [apply StronglySorted_snoc; assumption|].
        apply Forall_app. split.
        * eapply Forall_impl; [|exact Hb]. simpl. intros; lia.
        * repeat constructor; simpl; lia.
    - destruct w as [[l0] us' ck']. auto.
    - repeat split; [exact Hm | constructor | constructor]. }
  apply G; simpl; repeat split; auto; constructor.
Qed.

(** X9. When [uuid4] never returns the same id twice, the ids of the log
    reached from start-up by any sequence of calls are pairwise distinct. *)
Theorem run_ids_distinct (cs : list call) (us : nat -> string)
  (ck : nat -> datetime) :
  (forall i j, us i = us j -> i = j) ->
  NoDup (map id (history (run lower cs (start us ck)))).
Proof.
  intros Hus.
  assert (G : forall l w,
             ((forall i j, uuids w i = uuids w j -> i = j)
              /\ (forall n, ~ In (uuids w n) (map id (history w)))
              /\ NoDup (map id (history w))) ->
             NoDup (map id (history (run lower l w)))).
  { induction l as [|c l IH]; intros w (Hi & Hf & Hn); [exact Hn|].
    apply (IH (do_call lower c w)). destruct c as [request mode| |]; simpl.
    - destruct (process_message_effect request mode w) as (-> & _ & Hu & _).
      split; [|split].
      + intros i j. rewrite !Hu. intros E. apply Hi in E. lia.
      + intros n. rewrite Hu, map_app, in_app_iff. simpl.
        intros [H|[H|[H|[]]]].
        * now apply (Hf (2 + n)%nat).
        * apply Hi in H. lia.
        * apply Hi in H. lia.
      + rewrite map_app. simpl.
        apply NoDup_app; [exact Hn | |].
        * repeat constructor; simpl; [|tauto].
          intros [H|[]]. apply Hi in H. discriminate.
        * intros x Hx [<-|[<-|[]]]; now apply Hf in Hx.
    - destruct w as [[l0] us' ck']. auto.
    - repeat split; [exact Hi | intros n [] | constructor]. }
  apply G; simpl; repeat split; auto; constructor.
Qed.

(** X10. In the log reached from start-up by any sequence of calls, the
    emotion an assistant message expresses is its internal emotion, or it is
    neutral and the internal emotion is sadness, anger or fear. *)
Theorem run_expressed_emotion (cs : list call) (us : nat -> string)
  (ck : nat -> datetime) :
  Forall (fun m =>
            match role m with
            | ASSISTANT =>
                exists i, internal_emotion m = Some i
                  /\ (emotion m = i
                      \/ (emotion m = NEUTRAL /\ In i [SADNESS; ANGER; FEAR]))
            | _ => True
            end)
    (history (run lower cs (start us ck))).
Proof.
  set (P := fun m : ChatMessage => match role m with ASSISTANT => _ | _ => True end).
  assert (G : forall l w, Forall P (history w) ->
                Forall P (history (run lower l w))).
  { induction l as [|c l IH]; intros w H; [exact H|].
    apply (IH (do_call lower c w)). destruct c as [request mode| |]; simpl.
    - destruct (process_message_effect request mode w) as (-> & _).
      apply Forall_app. split; [exact H|].
      repeat constructor; unfold P; simpl; auto.
      eexists. split; [reflexivity|].
      destruct mode; simpl; auto.
      destruct (analyze_emotion lower (req_content request)); simpl; auto 10.
    - destruct w as [[l0] us' ck']. exact H.
    - constructor. }
  apply G. constructor.
Qed.

(** X11. [clear_history] forgets: what the log says after calls [cs2] that
    follow a [clear_history] (roles, contents and emotions; not ids and
    timestamps) is what it says after [cs2] from start-up, whatever came
    before the clearing. *)
Theorem run_clear_forgets (cs1 cs2 : list call) (w : World)
  (us : nat -> string) (ck : nat -> datetime) :
  map said (history (run lower (cs1 ++ ClearHistory :: cs2) w))
  = map said (history (run lower cs2 (start us ck))).
Proof.
  assert (G : forall l w1 w2,
             map said (history w1) = map said (history w2) ->
             map said (history (run lower l w1))
             = map said (history (run lower l w2))).
  { induction l as [|c l IH]; intros w1 w2 H; [exact H|].
    apply (IH (do_call lower c w1) (do_call lower c w2)).
    destruct c as [request mode| |]; simpl.
    - destruct (process_message_effect request mode w1) as (-> & _).
      destruct (process_message_effect request mode w2) as (-> & _).
      rewrite !map_app, H. f_equal. unfold said. simpl.
      destruct mode; reflexivity.
    - destruct w1 as [[l1] u1 c1], w2 as [[l2] u2 c2]. exact H.
    - reflexivity. }
  rewrite run_app. simpl. apply G. reflexivity.
Qed.

(** ** The draws and the scores *)

Lemma dict_get_set_other {V} (k k' : string) (v : V) (d : dict V) :
  k' <> k -> dict_get k' (dict_set k v d) = dict_get k' d.
Proof.
  intros Hne. induction d as [|[k0 v0] d IH]; simpl.
  - destruct (String.eqb_spec k' k); [contradiction | reflexivity].
  - destruct (String.eqb_spec k k0) as [->|Hk]; simpl.
    + destruct (String.eqb_spec k' k0); [contradiction | reflexivity].
    + now rewrite IH.
Qed.

Lemma uniform_dict_labels {num} `{Number num} (a b : num) (g : Rng num) :
  fst (uniform_dict a b (map Emotion_value Emotion_members) g)
  = [ ("joy", a + (b - a) * g 0%nat); ("anger", a + (b - a) * g 1%nat);
      ("sadness", a + (b - a) * g 2%nat); ("surprise", a + (b - a) * g 3%nat);
      ("fear", a + (b - a) * g 4%nat); ("disgust", a + (b - a) * g 5%nat);
      ("neutral", a + (b - a) * g 6%nat) ]%num.
Proof. reflexivity. Qed.

(** X12. Whatever the arithmetic, [analyze_emotion_with_confidence] returns
    the label of [analyze_emotion] and takes eight draws: the draw number i
    (from 0) makes the raw score of the i-th label of [Emotion], the eighth
    makes the confidence, and the score returned for a label other than the
    detected one is its raw score over the total; the draw made for the
    detected label is overwritten. *)
Theorem analyze_emotion_with_confidence_draws {num} `{Number num}
  (text : string) (g : Rng num) :
  let '((emotion, confidence, scores), g') :=
    analyze_emotion_with_confidence lower text g in
  emotion = analyze_emotion lower text
  /\ confidence = (ndec 7 1 + (ndec 95 2 - ndec 7 1) * g 7%nat)%num
  /\ (forall n, g' n = g (8 + n)%nat)
  /\ forall i e,
       nth_error Emotion_members i = Some e -> e <> emotion ->
       dict_get (Emotion_value e) scores
       = Some ((ndec 1 1 + (ndec 3 1 - ndec 1 1) * g i)
               / sum (dict_values (raw_scores lower text g)))%num.
Proof.
  unfold analyze_emotion_with_confidence, raw_scores, raw_confidence.
  set (e0 := analyze_emotion lower text). clearbody e0.
  pose proof (uniform_dict_labels (ndec 1 1) (ndec 3 1) g) as E.
  pose proof (uniform_dict_rng (ndec 1 1) (ndec 3 1)
                (map Emotion_value Emotion_members) g) as R.
  destruct (uniform_dict _ _ _ g) as [d g1]. cbn [fst snd] in E, R. subst d.
  unfold uniform, random. cbn [fst snd].
  rewrite (R 0%nat). cbn [List.length map Emotion_members Nat.add].
  split; [reflexivity|]. split; [reflexivity|]. split.
  - intros n. rewrite (R (S n)). cbn [List.length map Emotion_members].
    f_equal.
  - intros i e Hi Hne.
    rewrite (dict_get_map (fun v => ndiv v _)).
    rewrite dict_get_set_other by (destruct e, e0; congruence || discriminate).
    do 7 (destruct i as [|i]; [injection Hi as <-; reflexivity|]).
    destruct i; discriminate.
Qed.


End MoreServicesFacts.

(** ** Instances of the further theorems that have hypotheses *)

Lemma tally_injective (i j : nat) : tally i = tally j -> i = j.
Proof.
  revert j; induction i as [|i IH]; intros [|j] E; try discriminate; auto.
  injection E as E. f_equal. now apply IH.
Qed.

(** [analyze_emotion_surprise] at "Wow" (surprise) and "Amazing!" (joy). *)
Lemma analyze_emotion_surprise_witness :
  Hits ["wow"; "surprised"; "unbelievable"; "shocked"] (lower_ascii "Wow")
  /\ analyze_emotion lower_ascii "Amazing!" = JOY.
Proof.
  split.
  - apply (proj1 (analyze_emotion_surprise lower_ascii "Wow")). reflexivity.
  - apply (proj2 (analyze_emotion_surprise lower_ascii "Amazing!")).
    apply str_in_spec. reflexivity.
Defined.

(** [analyze_emotion_extend] at "sad" inside "So SAD, yet happy". *)
Lemma analyze_emotion_extend_witness :
  (priority (analyze_emotion lower_ascii "So SAD, yet happy")
   <= priority (analyze_emotion lower_ascii "sad"))%nat.
Proof.
  apply (analyze_emotion_extend lower_ascii "sad" "So SAD, yet happy").
  apply str_in_spec. reflexivity.
Defined.

(** [process_message_reply_only_content] at two requests for "I hate this"
    that declare different emotions, one at start-up and one after a call. *)
Lemma process_message_reply_only_content_witness :
  let r1 := {| req_content := "I hate this"; req_emotion := NEUTRAL;
               req_mode := Some NT |} in
  let r2 := {| req_content := "I hate this"; req_emotion := JOY;
               req_mode := None |} in
  let w1 := start tally Z.of_nat in
  let w2 := snd (process_message lower_ascii r1 ASD w1) in
  let a := fst (process_message lower_ascii r1 NT w1) in
  let b := fst (process_message lower_ascii r2 NT w2) in
  resp_message a = resp_message b
  /\ resp_emotion a = resp_emotion b
  /\ resp_internal_emotion a = resp_internal_emotion b.
Proof.
  intros r1 r2 w1 w2.
  apply (process_message_reply_only_content lower_ascii r1 r2 NT w1 w2).
  reflexivity.
Defined.

(** [run_timestamps_sorted] with the clock 0, 1, 2, ... *)
Lemma run_timestamps_sorted_witness :
  StronglySorted Z.le
    (map timestamp
       (history
          (run lower_ascii
             [ Process {| req_content := "hello"; req_emotion := NEUTRAL;
                          req_mode := None |} ASD;
               GetHistory;
               Process {| req_content := "I hate this"; req_emotion := ANGER;
                          req_mode := Some NT |} NT ]
             (start tally Z.of_nat)))).
Proof.
  apply (run_timestamps_sorted lower_ascii _ tally Z.of_nat).
  intros n. lia.
Defined.

(** [run_ids_distinct] with the ids of [tally]. *)
Lemma run_ids_distinct_witness :
  NoDup
    (map id
       (history
          (run lower_ascii
             [ Process {| req_content := "hello"; req_emotion := NEUTRAL;
                          req_mode := None |} ASD;
               GetHistory;
               Process {| req_content := "I hate this"; req_emotion := ANGER;
                          req_mode := Some NT |} NT ]
             (start tally Z.of_nat)))).
Proof.
  apply (run_ids_distinct lower_ascii _ tally Z.of_nat).
  exact tally_injective.
Defined.
